(** * registermaps.util: resource resolver, output destinations, registry

    A shallow embedding of [src/registermaps/util.py] and the properties
    of its four parts: the memoized resource resolvers, the diagnostic
    printer, the output destination classes and the output registry.

    Conventions of the embedding:
    - a Python [str] used as a name (resource name, path, output name) is
      a [string]; file contents are [list byte]; decoded text is a list
      of Unicode code points ([list N]);
    - a call that may raise returns a [result]; the exception classes are
      the constructors of [exn];
    - state that the module keeps between calls (the [lru_cache] of each
      resolver, the registry dictionary, the file system, the standard
      streams) is passed explicitly. *)

From Stdlib Require Import Strings.String Strings.Ascii Strings.Byte NArith List Bool Arith Lia.
From stdpp Require Import base option strings list gmap.

Open Scope string_scope.

(** ** Exceptions and results *)

Inductive exn : Type :=
  | FileNotFoundError
  | FileExistsError
  | IsADirectoryError
  | NotADirectoryError
  | OSError
  | UnicodeDecodeError
  | LookupError
  | TemplateNotFound
  | TemplateSyntaxError
  | NotImplementedError
  | AttributeError
  | TypeError
  | ValueError
  | KeyError (key : string).

Inductive result (A : Type) : Type :=
  | Ok (a : A)
  | Raise (e : exn).
Arguments Ok {A} a.
Arguments Raise {A} e.

Definition is_ok {A} (r : result A) : bool :=
  match r with Ok _ => true | Raise _ => false end.

Definition bind {A B} (r : result A) (k : A -> result B) : result B :=
  match r with Ok a => k a | Raise e => Raise e end.

Notation "'try' x := r 'in' k" := (bind r (fun x => k))
  (at level 10, x name, r at level 100, k at level 200,
   format "'[v' 'try'  x  :=  r  'in' '/' k ']'").

(** The not-found conditions of the module: a missing file, a missing
    template and a missing dictionary key. *)
Definition not_found (e : exn) : bool :=
  match e with
  | FileNotFoundError | TemplateNotFound | KeyError _ => true
  | _ => false
  end.

(** ** Strings *)

(** [x[k:]] *)
Fixpoint str_drop (k : nat) (x : string) : string :=
  match k, x with
  | O, _ => x
  | S k', EmptyString => EmptyString
  | S k', String _ x' => str_drop k' x'
  end.

(** [x.startswith(p)] *)
Definition startswith (x p : string) : bool := String.prefix p x.

(** ** Resource names *)

Definition _RSC : string := "resource/".

Definition _strip_resource (x : string) : string :=
  if startswith x _RSC then str_drop (String.length _RSC) x else x.

(** ** [functools.lru_cache]

    The wrapper keeps its entries ordered from most to least recently
    used, keyed by the arguments of the call exactly as they were passed,
    and counts hits and misses as [cache_info()] reports them. A miss is
    counted before the wrapped function runs, so [misses] is the number of
    times the wrapped function was entered; a call that raises stores
    nothing. When the cache is full the least recently used entry makes
    room for the new one. *)

Record lru (K V : Type) : Type := mk_lru {
  entries : list (K * V);
  hits : nat;
  misses : nat
}.
Arguments mk_lru {K V} entries hits misses.
Arguments entries {K V} l.
Arguments hits {K V} l.
Arguments misses {K V} l.

Definition lru_empty {K V : Type} : lru K V := mk_lru [] 0 0.

Section lru_cache.
Context {K V : Type} `{EqDecision K}.

Fixpoint assoc_get (k : K) (l : list (K * V)) : option V :=
  match l with
  | [] => None
  | (k', v) :: l' => if decide (k = k') then Some v else assoc_get k l'
  end.

Fixpoint assoc_del (k : K) (l : list (K * V)) : list (K * V) :=
  match l with
  | [] => []
  | (k', v) :: l' =>
      if decide (k = k') then assoc_del k l' else (k', v) :: assoc_del k l'
  end.

Variable maxsize : nat.
Variable user_function : K -> result V.

Definition lru_call (key : K) (c : lru K V) : result V * lru K V :=
  match assoc_get key (entries c) with
  | Some v =>
      (Ok v, mk_lru ((key, v) :: assoc_del key (entries c))
                    (S (hits c)) (misses c))
  | None =>
      match user_function key with
      | Ok v =>
          let kept :=
            if (maxsize <=? List.length (entries c))%nat
            then removelast (entries c) else entries c in
          (Ok v, mk_lru ((key, v) :: kept) (hits c) (S (misses c)))
      | Raise e => (Raise e, mk_lru (entries c) (hits c) (S (misses c)))
      end
  end.

(** The cache states a process can be in: the empty cache the decorator
    starts with, and whatever a call leaves behind. *)
Inductive lru_reachable : lru K V -> Prop :=
  | reach_empty : lru_reachable lru_empty
  | reach_call key c :
      lru_reachable c -> lru_reachable (snd (lru_call key c)).

(** Every stored value is what the wrapped function returns for its key. *)
Definition lru_coherent (c : lru K V) : Prop :=
  forall k v, assoc_get k (entries c) = Some v -> user_function k = Ok v.
End lru_cache.

(** ** Text decoding *)

Definition text : Type := list N.

Definition in_range (lo hi b : N) : bool := ((lo <=? b) && (b <=? hi))%N.

(** Admissible range of the second byte of a multi-byte sequence, by lead
    byte: it excludes overlong forms, surrogates and code points above
    U+10FFFF. *)
Definition second_byte_range (b0 : N) : N * N :=
  (if b0 =? 0xE0 then (0xA0, 0xBF)
   else if b0 =? 0xED then (0x80, 0x9F)
   else if b0 =? 0xF0 then (0x90, 0xBF)
   else if b0 =? 0xF4 then (0x80, 0x8F)
   else (0x80, 0xBF))%N.

Definition is_cont (b : N) : bool := in_range 0x80 0xBF b.

(** The [utf-8] codec with the [strict] error handler: [None] stands for
    [UnicodeDecodeError]. *)
Fixpoint utf8_decode (bs : list N) : option text :=
  match bs with
  | [] => Some []
  | b0 :: r0 =>
      if (b0 <? 0x80)%N then option_map (cons b0) (utf8_decode r0)
      else if in_range 0xC2 0xDF b0 then
        match r0 with
        | b1 :: r1 =>
            if is_cont b1
            then option_map (cons ((b0 - 0xC0) * 64 + (b1 - 0x80))%N)
                            (utf8_decode r1)
            else None
        | _ => None
        end
      else if in_range 0xE0 0xEF b0 then
        match r0 with
        | b1 :: b2 :: r2 =>
            let '(lo, hi) := second_byte_range b0 in
            if in_range lo hi b1 && is_cont b2
            then option_map
                   (cons ((b0 - 0xE0) * 4096 + (b1 - 0x80) * 64
                          + (b2 - 0x80))%N)
                   (utf8_decode r2)
            else None
        | _ => None
        end
      else if in_range 0xF0 0xF4 b0 then
        match r0 with
        | b1 :: b2 :: b3 :: r3 =>
            let '(lo, hi) := second_byte_range b0 in
            if in_range lo hi b1 && is_cont b2 && is_cont b3
            then option_map
                   (cons ((b0 - 0xF0) * 262144 + (b1 - 0x80) * 4096
                          + (b2 - 0x80) * 64 + (b3 - 0x80))%N)
                   (utf8_decode r3)
            else None
        | _ => None
        end
      else None
  end.

Definition utf8_strict (b : list byte) : result text :=
  match utf8_decode (map Byte.to_N b) with
  | Some t => Ok t
  | None => Raise UnicodeDecodeError
  end.

(** Reading a file opened in text mode with the default [newline=None]
    turns ["\r\n"] and a lone ["\r"] into ["\n"]. *)
Fixpoint universal_newlines (t : text) : text :=
  match t with
  | [] => []
  | c :: r =>
      if (c =? 13)%N then
        10%N :: match r with
                | c' :: r' =>
                    if (c' =? 10)%N then universal_newlines r'
                    else universal_newlines r
                | [] => []
                end
      else c :: universal_newlines r
  end.

(** ** Resource resolvers *)

Section resources.
(** [(_RESOURCE_BASE / x).read_bytes()]: what reading the path [x] below
    the package's [resource] directory gives, the file's bytes or the
    exception that the path lookup or the open raises. Resources do not
    change while the process runs, so this is a function of [x]. *)
Variable bundle : string -> result (list byte).
(** The codecs other than strict UTF-8, by encoding and error handler. *)
Variable other_codecs : string -> string -> list byte -> result text.
(** [jinja2.Template], and [jinja.get_template]: what the template
    environment gives for a template name, the compiled template or the
    exception of its loader or compiler. *)
Variable Template : Type.
Variable jinja_get_template : string -> result Template.

Definition decode (encoding errors : string) (b : list byte) : result text :=
  if String.eqb encoding "utf-8" && String.eqb errors "strict"
  then utf8_strict b
  else other_codecs encoding errors b.

(** The body that [@lru_cache(64)] wraps: [__wrapped__]. *)
Definition resource_bytes__wrapped (resourcename : string)
  : result (list byte) :=
  let rsc := _strip_resource resourcename in
  bundle rsc.

Definition resource_bytes (resourcename : string)
  : lru string (list byte) -> result (list byte) * lru string (list byte) :=
  lru_call 64 resource_bytes__wrapped resourcename.

(** The cache key of [resource_text] is the argument tuple as passed: an
    omitted [encoding] or [errors] is [None] in the key and takes its
    default inside the body. Opening the path for reading text fails as
    opening it for reading bytes does; the codec is looked up and the
    content decoded once the file is open. *)
Definition text_key : Type := string * option string * option string.

Definition resource_text__wrapped (args : text_key) : result text :=
  let '(resourcename, encoding, errors) := args in
  let encoding := default "utf-8" encoding in
  let errors := default "strict" errors in
  let rsc := _strip_resource resourcename in
  match bundle rsc with
  | Raise e => Raise e
  | Ok b =>
      match decode encoding errors b with
      | Ok data => Ok (universal_newlines data)
      | Raise e => Raise e
      end
  end.

Definition resource_text (resourcename : string)
    (encoding errors : option string)
  : lru text_key text -> result text * lru text_key text :=
  lru_call 64 resource_text__wrapped (resourcename, encoding, errors).

Definition resource_template__wrapped (resourcename : string)
  : result Template :=
  let resourcename := _strip_resource resourcename in
  jinja_get_template resourcename.

Definition resource_template (resourcename : string)
  : lru string Template -> result Template * lru string Template :=
  lru_call 64 resource_template__wrapped resourcename.

(** ** Output registry *)

(** A class as the registry sees it: its identity and its [outputname]
    attribute. *)
Record py_class : Type := mk_class {
  class_name : string;
  outputname : string
}.

(** A [dict] keeps its keys in insertion order; assigning to a key that
    is present replaces the value where it stands. *)
Definition dict : Type := list (string * py_class).

Fixpoint dict_get (d : dict) (k : string) : option py_class :=
  match d with
  | [] => None
  | (k', v) :: d' => if String.eqb k k' then Some v else dict_get d' k
  end.

Fixpoint dict_set (d : dict) (k : string) (v : py_class) : dict :=
  match d with
  | [] => [(k, v)]
  | (k', v') :: d' =>
      if String.eqb k k' then (k', v) :: d' else (k', v') :: dict_set d' k v
  end.

Definition dict_keys (d : dict) : list string := map fst d.

Record _Outputs : Type := mk_Outputs { _outputs : dict }.

Definition _Outputs__init__ : _Outputs := mk_Outputs [].

Definition register (self : _Outputs) (kls : py_class)
  : py_class * _Outputs :=
  (kls, mk_Outputs (dict_set (_outputs self) (outputname kls) kls)).

Definition _Outputs__iter__ (self : _Outputs) : list string :=
  dict_keys (_outputs self).

Definition docs (self : _Outputs) (output : string)
  : lru text_key text -> result text * lru text_key text :=
  resource_text ("resource/" ++ output ++ "/README.rst") None None.

Definition output (self : _Outputs) (output : string) : result py_class :=
  match dict_get (_outputs self) output with
  | Some kls => Ok kls
  | None => Raise (KeyError output)
  end.
End resources.

(** ** Diagnostics *)

(** The objects [print] can write to, and what has been written to each. *)
Inductive channel : Type :=
  | sys_stdout
  | sys_stderr
  | file_like (id : nat).

Global Instance channel_eq_dec : EqDecision channel.
Proof. solve_decision. Defined.










(** [ProgramGlobals]: a dictionary with the one key ['verbose']. *)
Record globals : Type := mk_globals { verbose : bool }.

Definition ProgramGlobals : globals := mk_globals false.


(** ** Files *)

(** The file system as the files it holds, by path. Parent directories
    and permissions are outside the model: a path can always be created. *)

Record file_object : Type := mk_file {
  f_name : string;
  f_pending : string
}.

(** [c in mode] *)
Fixpoint has_char (c : ascii) (mode : string) : bool :=
  match mode with
  | EmptyString => false
  | String c' mode' => Ascii.eqb c c' || has_char c mode'
  end.

Definition count_true (l : list bool) : nat :=
  List.length (filter (fun b => b = true) l).

(** Every character of [mode] is one of [allowed]. *)
Fixpoint all_chars_in (allowed mode : string) : bool :=
  match mode with
  | EmptyString => true
  | String c mode' => has_char c allowed && all_chars_in allowed mode'
  end.

(** No character occurs twice in [mode]. *)
Fixpoint no_repeat (mode : string) : bool :=
  match mode with
  | EmptyString => true
  | String c mode' => negb (has_char c mode') && no_repeat mode'
  end.

(** The built-in [open(file, mode='r')]: the mode is made of the
    characters [axrwb+t], none twice, not both [t] and [b], and names
    exactly one of reading, writing, creating and appending. The file
    holds strings in text and in binary mode alike. *)
Definition builtin_open (file : string) (args : list string)
    (fs : gmap string string) : result file_object * gmap string string :=
  let mode := match args with m :: _ => m | [] => "r" end in
  let reading := has_char "r" mode in
  let writing := has_char "w" mode in
  let creating := has_char "x" mode in
  let appending := has_char "a" mode in
  if negb (all_chars_in "axrwb+t" mode && no_repeat mode)
  then (Raise ValueError, fs)
  else if has_char "t" mode && has_char "b" mode
  then (Raise ValueError, fs)
  else if negb (count_true [reading; writing; creating; appending] =? 1)%nat
  then (Raise ValueError, fs)
  else if reading then
    match fs !! file with
    | Some _ => (Ok (mk_file file EmptyString), fs)
    | None => (Raise FileNotFoundError, fs)
    end
  else if writing then (Ok (mk_file file EmptyString), <[file := EmptyString]> fs)
  else if creating then
    match fs !! file with
    | Some _ => (Raise FileExistsError, fs)
    | None => (Ok (mk_file file EmptyString), <[file := EmptyString]> fs)
    end
  else (Ok (mk_file file EmptyString), <[file := default EmptyString (fs !! file)]> fs).

Definition file_write (f : file_object) (s : string) : file_object :=
  mk_file (f_name f) (f_pending f ++ s).

Definition file_close (f : file_object) (fs : gmap string string)
  : gmap string string :=
  <[f_name f := default EmptyString (fs !! f_name f) ++ f_pending f]> fs.

(** [a.endswith('/')] *)
Fixpoint ends_with_sep (a : string) : bool :=
  match a with
  | EmptyString => false
  | String c EmptyString => Ascii.eqb c "/"
  | String _ a' => ends_with_sep a'
  end.

(** [os.path.join(a, b)] on POSIX. *)
Definition os_path_join (a b : string) : string :=
  if startswith b "/" then b
  else if String.eqb a EmptyString || ends_with_sep a then a ++ b
  else a ++ "/" ++ b.

(** [io.StringIO]: a text buffer and the position the next write goes
    to. Without a seek the position is the end of the buffer. *)
Record StringIO : Type := mk_StringIO {
  sio_buf : string;
  sio_pos : nat
}.

Definition StringIO__init__ : StringIO := mk_StringIO EmptyString 0.

Definition StringIO_write (b : StringIO) (s : string) : StringIO :=
  mk_StringIO
    (String.substring 0 (sio_pos b) (sio_buf b) ++ s
     ++ str_drop (sio_pos b + String.length s) (sio_buf b))
    (sio_pos b + String.length s).

Definition getvalue (b : StringIO) : string := sio_buf b.

(** ** Output destinations *)

(** The classes of the hierarchy, what each class body defines, and the
    method resolution order. Both properties of the module are declared
    with a getter only. *)
Inductive klass : Type :=
  | _BaseOutputDestination
  | TextOutput
  | DirOutput
  | StdOutput
  | StringOutput.

Inductive member : Type :=
  | Method
  | Property.

Definition class_dict (k : klass) : list (string * member) :=
  match k with
  | _BaseOutputDestination => [("open", Method); ("stream", Property)]
  | TextOutput => [("__init__", Method)]
  | DirOutput => [("__init__", Method); ("open", Method)]
  | StdOutput => [("open", Method); ("stream", Property)]
  | StringOutput => [("__init__", Method); ("str", Property)]
  end.

Definition mro (k : klass) : list klass :=
  match k with
  | _BaseOutputDestination => [_BaseOutputDestination]
  | _ => [k; _BaseOutputDestination]
  end.

(** Look a name up on the type: the first class of the resolution order
    that defines it, with what it defines. *)
Fixpoint type_lookup (ks : list klass) (name : string)
  : option (klass * member) :=
  match ks with
  | [] => None
  | k :: ks' =>
      match assoc_get name (class_dict k) with
      | Some m => Some (k, m)
      | None => type_lookup ks' name
      end
  end.

Inductive value : Type :=
  | VStr (s : string)
  | VFile (f : file_object)
  | VStringIO (b : StringIO)
  | VChannel (c : channel)
  | VMethod (owner : klass) (name : string).

Record object : Type := mk_object {
  ob_type : klass;
  ob_dict : list (string * value)
}.

(** [object.__new__(k)] *)
Definition new_object (k : klass) : object := mk_object k [].

(** [self.name = v], that is [object.__setattr__]: a property found on
    the type is a data descriptor and takes the assignment; having no
    setter, it raises. Otherwise the value goes to the instance
    dictionary. *)
Definition object_setattr (self : object) (name : string) (v : value)
  : result object :=
  match type_lookup (mro (ob_type self)) name with
  | Some (_, Property) => Raise AttributeError
  | _ =>
      Ok (mk_object (ob_type self)
            ((name, v) :: assoc_del name (ob_dict self)))
  end.

(** [self.name], that is [object.__getattribute__], over the getters
    [fget] of the properties: a property of the type comes first, then
    the instance dictionary, then a method of the type. *)
Definition getattr_via (fget : klass -> string -> object -> result value)
    (self : object) (name : string) : result value :=
  match type_lookup (mro (ob_type self)) name with
  | Some (owner, Property) => fget owner name self
  | found =>
      match assoc_get name (ob_dict self), found with
      | Some v, _ => Ok v
      | None, Some (owner, _) => Ok (VMethod owner name)
      | None, None => Raise AttributeError
      end
  end.

(** The getters of the two [stream] properties. *)
Definition stream_fget (owner : klass) (name : string) (self : object)
  : result value :=
  match owner with
  | StdOutput => Ok (VChannel sys_stdout)
  | _ => Raise NotImplementedError
  end.

(** The getter of the [str] property of [StringOutput]. *)
Definition StringOutput_str (self : object) : result value :=
  try s := getattr_via stream_fget self "stream" in
  match s with
  | VStringIO b => Ok (VStr (getvalue b))
  | _ => Raise AttributeError
  end.

Definition property_fget (owner : klass) (name : string) (self : object)
  : result value :=
  if String.eqb name "str" then StringOutput_str self
  else stream_fget owner name self.

Definition object_getattr : object -> string -> result value :=
  getattr_via property_fget.

(** [TextOutput(filehandle)] *)
Definition TextOutput__init__ (self : object) (filehandle : value)
  : result object :=
  object_setattr self "stream" filehandle.

Definition TextOutput_new (filehandle : value) : result object :=
  TextOutput__init__ (new_object TextOutput) filehandle.

(** [DirOutput(dir)] *)
Definition DirOutput__init__ (self : object) (dir : string) : result object :=
  object_setattr self "dir" (VStr dir).

Definition DirOutput_new (dir : string) : result object :=
  DirOutput__init__ (new_object DirOutput) dir.

Definition DirOutput_open (self : object) (args : list string)
    (fs : gmap string string) : result object * gmap string string :=
  match args with
  | [] => (Raise TypeError, fs)
  | filename :: args =>
      match object_getattr self "dir" with
      | Ok (VStr dir) =>
          let fn := os_path_join dir filename in
          match builtin_open fn args fs with
          | (Ok f, fs') => (TextOutput_new (VFile f), fs')
          | (Raise e, fs') => (Raise e, fs')
          end
      | Ok _ => (Raise TypeError, fs)
      | Raise e => (Raise e, fs)
      end
  end.

(** [StdOutput()]: the class has no [__init__]. *)
Definition StdOutput_new : result object := Ok (new_object StdOutput).

(** [StringOutput()] *)
Definition StringOutput__init__ (self : object) : result object :=
  object_setattr self "stream" (VStringIO StringIO__init__).

Definition StringOutput_new : result object :=
  StringOutput__init__ (new_object StringOutput).

(** [self.open] applied to positional arguments: the method the type
    resolves [open] to. *)
Definition call_open (self : object) (args : list string)
    (fs : gmap string string) : result object * gmap string string :=
  match type_lookup (mro (ob_type self)) "open" with
  | Some (DirOutput, Method) => DirOutput_open self args fs
  | Some (StdOutput, Method) => (Ok self, fs)
  | Some (_, Method) => (Raise NotImplementedError, fs)
  | _ => (Raise AttributeError, fs)
  end.

(** [dest.stream.write(s)] on a destination whose stream is a
    [StringIO]: the buffer the attribute refers to is updated in place. *)
Definition stream_write_str (self : object) (s : string) : result object :=
  try v := object_getattr self "stream" in
  match v with
  | VStringIO b =>
      Ok (mk_object (ob_type self)
            (("stream", VStringIO (StringIO_write b s))
             :: assoc_del "stream" (ob_dict self)))
  | _ => Raise AttributeError
  end.

(** Construct an in-memory destination, write the strings in order, read
    the buffer back. *)
Definition in_memory_session (writes : list string) : result value :=
  try dest := StringOutput_new in
  try dest := fold_left (fun d s => try o := d in stream_write_str o s)
                writes (Ok dest) in
  object_getattr dest "str".

(** Construct a directory destination, open a file in it, write to the
    stream of what comes back, close it. *)
Definition directory_session (dir filename mode data : string)
    (fs : gmap string string) : result unit * gmap string string :=
  match DirOutput_new dir with
  | Raise e => (Raise e, fs)
  | Ok d =>
      match call_open d [filename; mode] fs with
      | (Raise e, fs') => (Raise e, fs')
      | (Ok out, fs') =>
          match object_getattr out "stream" with
          | Ok (VFile f) => (Ok tt, file_close (file_write f data) fs')
          | Ok _ => (Raise AttributeError, fs')
          | Raise e => (Raise e, fs')
          end
      end
  end.

(** ** Cache slots of two calls

    [call1] under key [k1] and [call2] under key [k2] are memoized apart:
    from a cache that holds neither key, both calls enter the wrapped
    function (two misses), they return the same result, and when that
    result is a value both keys are stored afterwards, so that repeating
    either call is a hit. *)
Definition separate_entries {K V : Type} `{EqDecision K} (k1 k2 : K)
    (call1 call2 : lru K V -> result V * lru K V) : Prop :=
  forall c : lru K V,
    assoc_get k1 (entries c) = None ->
    assoc_get k2 (entries c) = None ->
    let c1 := snd (call1 c) in
    let c2 := snd (call2 c1) in
    fst (call1 c) = fst (call2 c1) /\
    misses c2 = misses c + 2 /\
    (is_ok (fst (call1 c)) = true ->
     misses (snd (call1 c2)) = misses c2 /\
     misses (snd (call2 c2)) = misses c2).

(** ** A file system for the resource directory

    Regular files and directories, all readable, without symbolic links,
    with the limits of Linux on the length of a name and of a path. The
    package's resource directory is the directory at the path [base] from
    the root. *)

#[warnings="-register-all"] Inductive node : Type :=
  | File (content : list byte)
  | Dir (children : list (string * node)).

Definition NAME_MAX : nat := 255.
Definition PATH_MAX : nat := 4096.

(** [name.split('/')] *)
Fixpoint split_path (name : string) : list string :=
  match name with
  | EmptyString => [EmptyString]
  | String c name' =>
      if Ascii.eqb c "/" then EmptyString :: split_path name'
      else match split_path name' with
           | seg :: rest => String c seg :: rest
           | [] => [String c EmptyString]
           end
  end.

(** The segments that count: [pathlib] drops empty segments and [.]. *)
Definition is_plain (seg : string) : bool :=
  negb (String.eqb seg EmptyString) && negb (String.eqb seg ".").

(** Length of the path string made of the segments, from the root. *)
Definition path_length (segs : list string) : nat :=
  match segs with
  | [] => 1
  | _ => list_sum (map (fun seg => S (String.length seg)) segs)
  end.

(** Path lookup of the operating system, from the directory [cur] whose
    ancestors are [up], nearest first: [..] goes to the parent (the root
    is its own parent), a name is searched in the current directory, and
    nothing can be searched in a file. *)
Fixpoint walk (up : list node) (cur : node) (segs : list string)
  : result node :=
  match segs with
  | [] => Ok cur
  | seg :: rest =>
      match cur with
      | File _ => Raise NotADirectoryError
      | Dir children =>
          if String.eqb seg ".." then
            match up with
            | [] => walk [] cur rest
            | parent :: up' => walk up' parent rest
            end
          else if (NAME_MAX <? String.length seg)%nat then Raise OSError
          else
            match assoc_get seg children with
            | None => Raise FileNotFoundError
            | Some n => walk (cur :: up) n rest
            end
      end
  end.

(** [(base / name).read_bytes()] with [pathlib]: a name with a NUL is
    refused before any lookup; an absolute name replaces the base; the
    path is then looked up from the root and the file read, a directory
    raising [IsADirectoryError]. *)
Definition posix_read (root : node) (base : list string) (name : string)
  : result (list byte) :=
  if has_char (ascii_of_nat 0) name then Raise ValueError
  else
    let parts := List.filter is_plain (split_path name) in
    let full := if startswith name "/" then parts else (base ++ parts)%list in
    if (PATH_MAX <=? path_length full)%nat then Raise OSError
    else
      match walk [] root full with
      | Ok (File content) => Ok content
      | Ok (Dir _) => Raise IsADirectoryError
      | Raise e => Raise e
      end.

(** The template names of jinja2 (3.x): the loader splits the name itself,
    refuses [..] and drops empty segments and [.]. *)
Definition split_template_path (template : string) : result (list string) :=
  let pieces := split_path template in
  if existsb (String.eqb "..") pieces then Raise TemplateNotFound
  else Ok (List.filter is_plain pieces).

(** [jinja.get_template] with the package loader of jinja2 (3.x) over the
    directory at [base]: whatever is not a regular file there is not
    found; the source is decoded as UTF-8 and compiled. *)
Definition package_loader_get_template {Template : Type}
    (compile : text -> result Template) (root : node) (base : list string)
    (template : string) : result Template :=
  match split_template_path template with
  | Raise e => Raise e
  | Ok pieces =>
      let full := (base ++ pieces)%list in
      if has_char (ascii_of_nat 0) template
         || (PATH_MAX <=? path_length full)%nat
      then Raise TemplateNotFound
      else
        match walk [] root full with
        | Ok (File content) =>
            match utf8_strict content with
            | Ok source => compile source
            | Raise e => Raise e
            end
        | _ => Raise TemplateNotFound
        end
  end.

(** ** Sample data

    A small package with its resource directory, a codec table without
    further codecs, a template compiler that keeps the source, and an
    output class, for the concrete instances below. *)
Definition sample_root : node :=
  Dir [("pkg",
        Dir [("resource",
              Dir [("foo.rst", File [x68; x69]);
                   ("html",
                    Dir [("README.rst",
                          File [x48; x54; x4d; x4c; x0d; x0a])]);
                   ("bad", Dir [("README.rst", File [xff])])])])].

Definition sample_base : list string := ["pkg"; "resource"].

Definition sample_bundle : string -> result (list byte) :=
  posix_read sample_root sample_base.

Definition no_codecs : string -> string -> list byte -> result text :=
  fun _ _ _ => Raise LookupError.

Definition source_template : text -> result text := Ok.

Definition sample_jinja : string -> result text :=
  package_loader_get_template source_template sample_root sample_base.

Definition html_class : py_class := mk_class "HtmlOutput" "html".

(** ** Sequences of calls *)

(** The cache after the calls with the keys [keys], in order. *)
Definition lru_calls {K V : Type} `{EqDecision K} (maxsize : nat)
    (user_function : K -> result V) (keys : list K) (c : lru K V) : lru K V :=
  fold_left (fun c key => snd (lru_call maxsize user_function key c)) keys c.

(** The registry after registering the classes [klasses], in order, from
    the empty registry the module creates as [Outputs]. *)
Definition registered (klasses : list py_class) : _Outputs :=
  fold_left (fun self kls => snd (register self kls)) klasses _Outputs__init__.

(** ** The export list

    Adjacent string literals are one literal: the last two lines of
    [__all__] lack a comma between them. *)
Definition __all__ : list string :=
  [ "Outputs";
    "printverbose"; "ProgramGlobals";
    "resource_bytes"; "resource_text"; "resource_template" ++ "__version__" ].

(** The names the module body binds at top level, in order. *)
Definition module_names : list string :=
  [ "io"; "os"; "sys"; "jinja2"; "lru_cache"; "importlib"; "textfn";
    "__version__"; "_RSC"; "_RESOURCE_BASE"; "_strip_resource";
    "resource_bytes"; "resource_text"; "jinja"; "resource_template";
    "ProgramGlobals"; "printverbose"; "_BaseOutputDestination";
    "TextOutput"; "DirOutput"; "StdOutput"; "StringOutput"; "_Outputs";
    "Outputs"; "__all__" ].

(** A star import of the module: every name of [__all__] is looked up in
    the module, in order; a name the module does not bind raises
    [AttributeError]. The result is the list of names imported. *)
Fixpoint import_names (names module : list string) : result (list string) :=
  match names with
  | [] => Ok []
  | name :: names' =>
      if existsb (String.eqb name) module
      then try rest := import_names names' module in Ok (name :: rest)
      else Raise AttributeError
  end.

Definition import_star : result (list string) :=
  import_names __all__ module_names.

(** * Properties *)

(** ** Resource names *)

Lemma startswith_app (p x : string) : startswith (p ++ x) p = true.
Proof.
  unfold startswith. induction p as [|a p IH]; simpl.
  - now destruct x.
  - destruct (ascii_dec a a); [exact IH | congruence].
Qed.

Lemma str_drop_app (p x : string) : str_drop (String.length p) (p ++ x) = x.
Proof. induction p as [|a p IH]; simpl; [reflexivity | exact IH]. Qed.

Lemma strip_prefixed (n : string) : _strip_resource (_RSC ++ n) = n.
Proof.
  unfold _strip_resource. rewrite startswith_app. apply str_drop_app.
Qed.

Lemma strip_unprefixed (n : string) :
  startswith n _RSC = false -> _strip_resource n = n.
Proof. unfold _strip_resource. now intros ->. Qed.

Lemma str_length_app (a b : string) :
  String.length (a ++ b) = String.length a + String.length b.
Proof. induction a as [|c a IH]; simpl; [reflexivity | now rewrite IH]. Qed.

Lemma prefixed_ne (n : string) : n <> _RSC ++ n.
Proof.
  intros E. apply (f_equal String.length) in E.
  rewrite str_length_app in E. simpl in E. lia.
Qed.

(** ** The cache *)

Section lru_facts.
Context {K V : Type} `{EqDecision K}.
Variable maxsize : nat.
Variable f : K -> result V.

Lemma assoc_get_del_ne (k key : K) (l : list (K * V)) :
  k <> key -> assoc_get k (assoc_del key l) = assoc_get k l.
Proof.
  intros Hne. induction l as [|[k' v'] l IH]; simpl; [reflexivity |].
  destruct (decide (key = k')) as [->|Hk].
  - rewrite IH. destruct (decide (k = k')); [contradiction | reflexivity].
  - simpl. now rewrite IH.
Qed.

Lemma assoc_get_removelast (k : K) (l : list (K * V)) (v : V) :
  assoc_get k (removelast l) = Some v -> assoc_get k l = Some v.
Proof.
  induction l as [|[k' v'] l IH]; [easy |].
  destruct l as [|p l']; [discriminate |].
  change (removelast ((k', v') :: p :: l'))
    with ((k', v') :: removelast (p :: l')).
  cbn [assoc_get]. destruct (decide (k = k')); auto.
Qed.

Lemma assoc_get_removelast_None (k : K) (l : list (K * V)) :
  assoc_get k l = None -> assoc_get k (removelast l) = None.
Proof.
  intros Hn. destruct (assoc_get k (removelast l)) as [v|] eqn:E;
    [| reflexivity].
  apply assoc_get_removelast in E. congruence.
Qed.

(** What a call leaves in the cache. *)
Lemma lru_call_hit (key : K) (c : lru K V) (v : V) :
  assoc_get key (entries c) = Some v ->
  lru_call maxsize f key c =
    (Ok v, mk_lru ((key, v) :: assoc_del key (entries c))
                  (S (hits c)) (misses c)).
Proof. unfold lru_call. now intros ->. Qed.

Lemma lru_call_miss_raise (key : K) (c : lru K V) (e : exn) :
  assoc_get key (entries c) = None -> f key = Raise e ->
  lru_call maxsize f key c =
    (Raise e, mk_lru (entries c) (hits c) (S (misses c))).
Proof. unfold lru_call. now intros -> ->. Qed.

Lemma lru_call_miss_ok (key : K) (c : lru K V) (v : V) :
  assoc_get key (entries c) = None -> f key = Ok v ->
  lru_call maxsize f key c =
    (Ok v,
     mk_lru ((key, v) ::
             (if (maxsize <=? List.length (entries c))%nat
              then removelast (entries c) else entries c))
            (hits c) (S (misses c))).
Proof. unfold lru_call. now intros -> ->. Qed.

(** Coherence is an invariant of the cache. *)
Lemma lru_call_coherent (key : K) (c : lru K V) :
  lru_coherent f c -> lru_coherent f (snd (lru_call maxsize f key c)).
Proof.
  intros Hc k v. unfold lru_call.
  destruct (assoc_get key (entries c)) as [v0|] eqn:Hget; simpl.
  - destruct (decide (k = key)) as [->|Hne].
    + intros [= <-]. now apply Hc.
    + rewrite assoc_get_del_ne by assumption. apply Hc.
  - destruct (f key) as [v0|e] eqn:Hf; simpl; [| apply Hc].
    destruct (decide (k = key)) as [->|Hne]; [now intros [= <-] |].
    destruct (maxsize <=? List.length (entries c))%nat; [| apply Hc].
    intros Hr. apply Hc. now apply assoc_get_removelast.
Qed.

Lemma lru_reachable_coherent (c : lru K V) :
  lru_reachable maxsize f c -> lru_coherent f c.
Proof.
  induction 1 as [|key c _ IH].
  - intros k v. discriminate.
  - now apply lru_call_coherent.
Qed.

(** Memoization is transparent: on a coherent cache a call returns what
    the wrapped function returns. *)
Lemma lru_call_transparent (key : K) (c : lru K V) :
  lru_coherent f c -> fst (lru_call maxsize f key c) = f key.
Proof.
  intros Hc. unfold lru_call.
  destruct (assoc_get key (entries c)) as [v|] eqn:Hget; simpl.
  - symmetry. now apply Hc.
  - now destruct (f key).
Qed.

Lemma lru_call_reachable_result (key : K) (c : lru K V) :
  lru_reachable maxsize f c -> fst (lru_call maxsize f key c) = f key.
Proof. intros Hr. now apply lru_call_transparent, lru_reachable_coherent. Qed.

(** A call enters the wrapped function at most once. *)
Lemma lru_call_misses (key : K) (c : lru K V) :
  misses c <= misses (snd (lru_call maxsize f key c)) <= S (misses c).
Proof.
  unfold lru_call. destruct (assoc_get key (entries c)); simpl; [lia |].
  destruct (f key); simpl; lia.
Qed.
End lru_facts.

(** Two distinct keys on which the wrapped function agrees occupy two
    slots, as soon as the cache has room for two. *)
Lemma lru_separate_entries {K V : Type} `{EqDecision K}
    (maxsize : nat) (f : K -> result V) (k1 k2 : K) :
  k1 <> k2 -> f k1 = f k2 -> 2 <= maxsize ->
  separate_entries k1 k2 (lru_call maxsize f k1) (lru_call maxsize f k2).
Proof.
  intros Hne Hf Hmax c H1 H2. cbv zeta.
  destruct (f k1) as [v|e] eqn:Hf1.
  - rewrite (lru_call_miss_ok maxsize f k1 c v H1 Hf1). cbn [fst snd].
    set (kept := if (maxsize <=? List.length (entries c))%nat
                 then removelast (entries c) else entries c).
    assert (Hk2 : assoc_get k2 (entries (mk_lru ((k1, v) :: kept)
                     (hits c) (S (misses c)))) = None).
    { cbn [entries assoc_get].
      destruct (decide (k2 = k1)) as [E|_]; [now symmetry in E |].
      unfold kept. destruct (maxsize <=? List.length (entries c))%nat;
        [now apply assoc_get_removelast_None | assumption]. }
    rewrite (lru_call_miss_ok maxsize f k2 _ v Hk2 (eq_sym Hf)).
    cbn [fst snd entries hits misses].
    set (kept2 := if (maxsize <=? List.length ((k1, v) :: kept))%nat
                  then removelast ((k1, v) :: kept) else (k1, v) :: kept).
    assert (Hin1 : assoc_get k1 kept2 = Some v).
    { unfold kept2.
      destruct (maxsize <=? List.length ((k1, v) :: kept))%nat eqn:Hfull.
      - apply Nat.leb_le in Hfull. cbn [List.length] in Hfull.
        destruct kept as [|p kept']; [cbn [List.length] in Hfull; lia |].
        change (removelast ((k1, v) :: p :: kept'))
          with ((k1, v) :: removelast (p :: kept')).
        cbn [assoc_get]. now destruct (decide (k1 = k1)).
      - cbn [assoc_get]. now destruct (decide (k1 = k1)). }
    split; [reflexivity |]. split; [lia |]. intros _. split.
    + erewrite lru_call_hit; [reflexivity |].
      cbn [entries assoc_get].
      destruct (decide (k1 = k2)); [contradiction | exact Hin1].
    + erewrite lru_call_hit; [reflexivity |].
      cbn [entries assoc_get]. now destruct (decide (k2 = k2)).
  - rewrite (lru_call_miss_raise maxsize f k1 c e H1 Hf1). cbn [fst snd].
    rewrite (lru_call_miss_raise maxsize f k2
               (mk_lru (entries c) (hits c) (S (misses c))) e H2 (eq_sym Hf)).
    cbn [fst snd misses is_ok].
    split; [reflexivity |]. split; [lia | discriminate].
Qed.

(** ** The resolvers *)

Section resolver_facts.
Variable bundle : string -> result (list byte).
Variable other_codecs : string -> string -> list byte -> result text.
Variable Template : Type.
Variable jinja_get_template : string -> result Template.

(** The prefixed form of an unprefixed name reaches the same file, in
    each of the three wrapped functions. *)
Lemma bytes_wrapped_prefixed (n : string) :
  startswith n _RSC = false ->
  resource_bytes__wrapped bundle n
  = resource_bytes__wrapped bundle (_RSC ++ n).
Proof.
  intros Hn. unfold resource_bytes__wrapped.
  now rewrite strip_prefixed, strip_unprefixed.
Qed.

Lemma text_wrapped_prefixed (n : string) (encoding errors : option string) :
  startswith n _RSC = false ->
  resource_text__wrapped bundle other_codecs (n, encoding, errors)
  = resource_text__wrapped bundle other_codecs (_RSC ++ n, encoding, errors).
Proof.
  intros Hn. unfold resource_text__wrapped.
  now rewrite strip_prefixed, strip_unprefixed.
Qed.

Lemma template_wrapped_prefixed (n : string) :
  startswith n _RSC = false ->
  resource_template__wrapped Template jinja_get_template n
  = resource_template__wrapped Template jinja_get_template (_RSC ++ n).
Proof.
  intros Hn. unfold resource_template__wrapped.
  now rewrite strip_prefixed, strip_unprefixed.
Qed.


(** What [docs] asks of the wrapped text resolver: the file
    [<output>/README.rst], decoded as strict UTF-8. *)
Lemma docs_wrapped (output : string) :
  resource_text__wrapped bundle other_codecs
    ("resource/" ++ output ++ "/README.rst", None, None)
  = match bundle (output ++ "/README.rst") with
    | Raise e => Raise e
    | Ok b => try data := utf8_strict b in Ok (universal_newlines data)
    end.
Proof.
  unfold resource_text__wrapped.
  change ("resource/" ++ output ++ "/README.rst")
    with (_RSC ++ (output ++ "/README.rst")).
  rewrite strip_prefixed.
  destruct (bundle (output ++ "/README.rst")) as [b|e]; [| reflexivity].
  change (decode other_codecs (default "utf-8" None) (default "strict" None) b)
    with (utf8_strict b).
  now destruct (utf8_strict b).
Qed.

Lemma docs_result (self : _Outputs) (output : string)
    (c : lru text_key text) :
  lru_reachable 64 (resource_text__wrapped bundle other_codecs) c ->
  fst (docs bundle other_codecs self output c)
  = match bundle (output ++ "/README.rst") with
    | Raise e => Raise e
    | Ok b => try data := utf8_strict b in Ok (universal_newlines data)
    end.
Proof.
  intros Hr. unfold docs, resource_text.
  rewrite lru_call_reachable_result by assumption. apply docs_wrapped.
Qed.

(** C3 (as amended): for a name [n] that does not start with the root
    marker, a call with [n] and a call with ["resource/" ++ n] to the same
    resolver are memoized under two keys, the argument strings as passed.
    From a cache that holds neither, each of the two calls enters the
    wrapped resolver (for the byte and text resolvers: reads the file),
    so there are two misses; the two calls return the same result; and
    when the name resolves both keys are cached afterwards, so repeating
    either call reads nothing. *)
Theorem C3_prefixed_name_separate_entry (n : string)
    (encoding errors : option string) :
  startswith n _RSC = false ->
  separate_entries n (_RSC ++ n)
    (resource_bytes bundle n) (resource_bytes bundle (_RSC ++ n)) /\
  separate_entries (n, encoding, errors) (_RSC ++ n, encoding, errors)
    (resource_text bundle other_codecs n encoding errors)
    (resource_text bundle other_codecs (_RSC ++ n) encoding errors) /\
  separate_entries n (_RSC ++ n)
    (resource_template Template jinja_get_template n)
    (resource_template Template jinja_get_template (_RSC ++ n)).
Proof.
  intros Hn. split; [| split].
  - apply lru_separate_entries;
      [apply prefixed_ne | now apply bytes_wrapped_prefixed | lia].
  - apply lru_separate_entries;
      [| now apply text_wrapped_prefixed | lia].
    intros [= E]. now apply prefixed_ne in E.
  - apply lru_separate_entries;
      [apply prefixed_ne | now apply template_wrapped_prefixed | lia].
Qed.

(** C4 (as amended): for every resource name [n] that does not itself
    start with the root marker, resolving [n] and resolving
    ["resource/" ++ n] through the same operation (bytes, text with equal
    encoding and error policy, template) gives the same result, whatever
    the two caches hold: equal content when [n] resolves, the same failure
    when it does not. *)
Theorem C4_prefixed_name_same_content (n : string)
    (encoding errors : option string)
    (cb cb' : lru string (list byte)) (ct ct' : lru text_key text)
    (cp cp' : lru string Template) :
  startswith n _RSC = false ->
  lru_reachable 64 (resource_bytes__wrapped bundle) cb ->
  lru_reachable 64 (resource_bytes__wrapped bundle) cb' ->
  lru_reachable 64 (resource_text__wrapped bundle other_codecs) ct ->
  lru_reachable 64 (resource_text__wrapped bundle other_codecs) ct' ->
  lru_reachable 64 (resource_template__wrapped Template jinja_get_template)
    cp ->
  lru_reachable 64 (resource_template__wrapped Template jinja_get_template)
    cp' ->
  fst (resource_bytes bundle n cb)
  = fst (resource_bytes bundle (_RSC ++ n) cb') /\
  fst (resource_text bundle other_codecs n encoding errors ct)
  = fst (resource_text bundle other_codecs (_RSC ++ n) encoding errors ct') /\
  fst (resource_template Template jinja_get_template n cp)
  = fst (resource_template Template jinja_get_template (_RSC ++ n) cp').
Proof.
  intros Hn Hb Hb' Ht Ht' Hp Hp'.
  unfold resource_bytes, resource_text, resource_template.
  rewrite !lru_call_reachable_result by assumption.
  auto using bytes_wrapped_prefixed, text_wrapped_prefixed,
    template_wrapped_prefixed.
Qed.


(** C7 (as amended): for every output name [s], [docs(s)] is the call of
    the text resolver on ["resource/<s>/README.rst"] with the default
    encoding and error policy. When the file [<s>/README.rst] can be read
    it returns the text read: the bytes decoded as strict UTF-8, with the
    line ends of text mode. When reading the file fails, the failure comes
    through unchanged and is not turned into empty or default content: the
    not-found condition [FileNotFoundError] when the file system reports
    the file as missing. *)
Theorem C7_docs_reads_readme (self : _Outputs) (s : string)
    (c : lru text_key text) :
  lru_reachable 64 (resource_text__wrapped bundle other_codecs) c ->
  docs bundle other_codecs self s c
  = resource_text bundle other_codecs ("resource/" ++ s ++ "/README.rst")
      None None c /\
  fst (docs bundle other_codecs self s c)
  = match bundle (s ++ "/README.rst") with
    | Raise e => Raise e
    | Ok b => try data := utf8_strict b in Ok (universal_newlines data)
    end /\
  (forall e, bundle (s ++ "/README.rst") = Raise e ->
     fst (docs bundle other_codecs self s c) = Raise e) /\
  (bundle (s ++ "/README.rst") = Raise FileNotFoundError ->
   fst (docs bundle other_codecs self s c) = Raise FileNotFoundError /\
   not_found FileNotFoundError = true).
Proof.
  intros Hr. split; [reflexivity |]. rewrite docs_result by assumption.
  split; [reflexivity |]. split; [now intros e -> | now intros ->].
Qed.

(** C10 (as amended): for every string [s], registered or not, [docs(s)]
    does not consult the registry. It fails with the not-found condition
    [FileNotFoundError] exactly when reading the bundled file
    [<s>/README.rst] fails with it, that is when the file system reports
    the file as missing; any other failure of the read comes through
    unchanged. When the file can be read, [docs(s)] returns the file's
    text if the bytes are valid strict UTF-8 and fails with
    [UnicodeDecodeError] otherwise. So the lookup for an unregistered name
    succeeds whenever its file can be read and decodes. *)
Theorem C10_docs_ignores_registry (self self' : _Outputs) (s : string)
    (c : lru text_key text) :
  lru_reachable 64 (resource_text__wrapped bundle other_codecs) c ->
  docs bundle other_codecs self s c = docs bundle other_codecs self' s c /\
  (fst (docs bundle other_codecs self s c) = Raise FileNotFoundError
   <-> bundle (s ++ "/README.rst") = Raise FileNotFoundError) /\
  (forall e, bundle (s ++ "/README.rst") = Raise e ->
     fst (docs bundle other_codecs self s c) = Raise e) /\
  (forall b, bundle (s ++ "/README.rst") = Ok b ->
     match utf8_strict b with
     | Ok data =>
         fst (docs bundle other_codecs self s c)
         = Ok (universal_newlines data)
     | Raise e =>
         e = UnicodeDecodeError /\
         fst (docs bundle other_codecs self s c) = Raise UnicodeDecodeError
     end) /\
  (forall b data, output self s = Raise (KeyError s) ->
     bundle (s ++ "/README.rst") = Ok b -> utf8_strict b = Ok data ->
     fst (docs bundle other_codecs self s c) = Ok (universal_newlines data)).
Proof.
  intros Hr. split; [reflexivity |]. rewrite docs_result by assumption.
  split; [| split; [| split]].
  - destruct (bundle (s ++ "/README.rst")) as [b|e].
    + unfold utf8_strict.
      destruct (utf8_decode (map to_N b)); cbn [bind]; split; discriminate.
    + split; [now intros [= ->] | now intros [= ->]].
  - now intros e ->.
  - intros b ->. unfold utf8_strict.
    destruct (utf8_decode (map to_N b)); cbn [bind]; auto.
  - intros b data _ -> ->. reflexivity.
Qed.
End resolver_facts.

Lemma C3_prefixed_name_separate_entry_witness :
  startswith "foo.rst" _RSC = false /\
  separate_entries "foo.rst" (_RSC ++ "foo.rst")
    (resource_bytes sample_bundle "foo.rst")
    (resource_bytes sample_bundle (_RSC ++ "foo.rst")).
Proof.
  split; [reflexivity |].
  apply (C3_prefixed_name_separate_entry sample_bundle no_codecs text
           sample_jinja "foo.rst" None None).
  reflexivity.
Defined.

(** C3 (as stated) fails: from the empty cache, [resource_bytes("foo.rst")]
    followed by [resource_bytes("resource/foo.rst")] reads the file twice
    and leaves two entries, one per argument string. *)
Lemma C3_counterexample :
  let c1 := snd (resource_bytes sample_bundle "foo.rst" lru_empty) in
  let c2 := snd (resource_bytes sample_bundle "resource/foo.rst" c1) in
  startswith "foo.rst" _RSC = false /\
  misses c2 = 2 /\
  ~ misses c2 <= 1 /\
  entries c2 = [("resource/foo.rst", [x68; x69]); ("foo.rst", [x68; x69])].
Proof. vm_compute. repeat split. lia. Qed.

Lemma C4_prefixed_name_same_content_witness :
  startswith "foo.rst" _RSC = false /\
  fst (resource_bytes sample_bundle "foo.rst" lru_empty)
  = fst (resource_bytes sample_bundle (_RSC ++ "foo.rst") lru_empty).
Proof.
  split; [reflexivity |].
  apply (C4_prefixed_name_same_content sample_bundle no_codecs text
           sample_jinja "foo.rst" None None
           lru_empty lru_empty lru_empty lru_empty lru_empty lru_empty);
    first [reflexivity | apply reach_empty].
Defined.

(** C4 (as stated) fails for a name that already carries the marker:
    ["resource/foo.rst"] resolves to the file [foo.rst], while its
    prefixed form ["resource/resource/foo.rst"] is stripped once and asks
    for [resource/foo.rst], which the bundle does not hold. *)
Lemma C4_counterexample :
  fst (resource_bytes sample_bundle "resource/foo.rst" lru_empty)
  = Ok [x68; x69] /\
  fst (resource_bytes sample_bundle ("resource/" ++ "resource/foo.rst")
         lru_empty)
  = Raise FileNotFoundError.
Proof. vm_compute. split; reflexivity. Qed.



Lemma C7_docs_reads_readme_witness :
  fst (docs sample_bundle no_codecs _Outputs__init__ "html" lru_empty)
  = Ok [72; 84; 77; 76; 10]%N /\
  sample_bundle "nope/README.rst" = Raise FileNotFoundError /\
  fst (docs sample_bundle no_codecs _Outputs__init__ "nope" lru_empty)
  = Raise FileNotFoundError.
Proof.
  pose proof (C7_docs_reads_readme sample_bundle no_codecs _Outputs__init__
                "html" lru_empty (reach_empty _ _)) as (_ & Hres & _).
  pose proof (C7_docs_reads_readme sample_bundle no_codecs _Outputs__init__
                "nope" lru_empty (reach_empty _ _)) as (_ & _ & _ & Hmiss).
  split; [rewrite Hres; vm_compute; reflexivity |].
  split; [vm_compute; reflexivity |].
  apply Hmiss. vm_compute. reflexivity.
Defined.

(** C7 (as stated) fails: for [s = "foo.rst"] the resource
    [foo.rst/README.rst] does not exist, and [docs(s)] fails with
    [NotADirectoryError]; for an [s] that holds a NUL it fails with
    [ValueError]. Neither is a not-found condition. *)
Lemma C7_counterexample :
  fst (docs sample_bundle no_codecs _Outputs__init__ "foo.rst" lru_empty)
  = Raise NotADirectoryError /\
  not_found NotADirectoryError = false /\
  fst (docs sample_bundle no_codecs _Outputs__init__
         (String (ascii_of_nat 0) EmptyString) lru_empty)
  = Raise ValueError /\
  not_found ValueError = false.
Proof. vm_compute. repeat split. Qed.

Lemma C10_docs_ignores_registry_witness :
  output _Outputs__init__ "html" = Raise (KeyError "html") /\
  docs sample_bundle no_codecs _Outputs__init__ "html" lru_empty
  = docs sample_bundle no_codecs (snd (register _Outputs__init__ html_class))
      "html" lru_empty /\
  fst (docs sample_bundle no_codecs _Outputs__init__ "html" lru_empty)
  = Ok (universal_newlines [72; 84; 77; 76; 13; 10]%N).
Proof.
  pose proof (C10_docs_ignores_registry sample_bundle no_codecs
                _Outputs__init__ (snd (register _Outputs__init__ html_class))
                "html" lru_empty (reach_empty _ _))
    as (Hsame & _ & _ & _ & Hok).
  split; [reflexivity |]. split; [exact Hsame |].
  apply (Hok [x48; x54; x4d; x4c; x0d; x0a]); vm_compute; reflexivity.
Defined.

(** C10 (as stated) fails: the file [bad/README.rst] exists, yet
    [docs("bad")] neither succeeds nor fails with a not-found condition;
    its single byte 0xFF is not UTF-8 and the strict decoder raises. *)
Lemma C10_counterexample :
  sample_bundle "bad/README.rst" = Ok [xff] /\
  fst (docs sample_bundle no_codecs _Outputs__init__ "bad" lru_empty)
  = Raise UnicodeDecodeError /\
  not_found UnicodeDecodeError = false.
Proof. vm_compute. repeat split. Qed.

(** ** The registry *)

Lemma dict_get_set_eq (d : dict) (k : string) (v : py_class) :
  dict_get (dict_set d k v) k = Some v.
Proof.
  induction d as [|[k' v'] d IH]; simpl.
  - now rewrite String.eqb_refl.
  - destruct (String.eqb k k') eqn:E; simpl; rewrite E; [reflexivity | exact IH].
Qed.

Lemma dict_get_set_ne (d : dict) (k k' : string) (v : py_class) :
  k' <> k -> dict_get (dict_set d k v) k' = dict_get d k'.
Proof.
  intros Hne. induction d as [|[k0 v0] d IH]; simpl.
  - now apply String.eqb_neq in Hne as ->.
  - destruct (String.eqb k k0) eqn:E; simpl.
    + apply String.eqb_eq in E as <-. now apply String.eqb_neq in Hne as ->.
    + now rewrite IH.
Qed.

Lemma dict_keys_set_in (d : dict) (k : string) (v : py_class) :
  List.In k (dict_keys (dict_set d k v)).
Proof.
  induction d as [|[k' v'] d IH]; simpl; [now left |].
  destruct (String.eqb k k') eqn:E; simpl.
  - left. symmetry. now apply String.eqb_eq.
  - now right.
Qed.

Lemma dict_get_not_in (d : dict) (k : string) :
  ~ List.In k (dict_keys d) -> dict_get d k = None.
Proof.
  induction d as [|[k' v'] d IH]; simpl; [reflexivity |]. intros Hn.
  destruct (String.eqb k k') eqn:E.
  - apply String.eqb_eq in E. exfalso. apply Hn. left. now symmetry.
  - apply IH. intros Hin. apply Hn. now right.
Qed.

(** Registering again under a name keeps the place of the name in the
    enumeration and replaces the class: the last registration wins. *)
Lemma register_twice_last_wins (self : _Outputs) (k1 k2 : py_class) :
  outputname k1 = outputname k2 ->
  output (snd (register (snd (register self k1)) k2)) (outputname k1) = Ok k2.
Proof.
  intros E. unfold output, register. cbn [snd _outputs].
  now rewrite E, dict_get_set_eq.
Qed.

(** C6: [register(C)] returns [C] unchanged and stores it under its
    output name [s]; afterwards [output(s)] returns [C], [s] is among the
    names the registry enumerates, and [output(s')] raises [KeyError] for
    every name [s'] that is not registered. *)
Theorem C6_register_then_output (self : _Outputs) (kls : py_class) :
  let self' := snd (register self kls) in
  fst (register self kls) = kls /\
  output self' (outputname kls) = Ok kls /\
  List.In (outputname kls) (_Outputs__iter__ self') /\
  (forall s' : string,
     ~ List.In s' (_Outputs__iter__ self') ->
     output self' s' = Raise (KeyError s') /\ not_found (KeyError s') = true).
Proof.
  cbv zeta. unfold register, output, _Outputs__iter__. cbn [fst snd _outputs].
  split; [reflexivity |]. split; [now rewrite dict_get_set_eq |].
  split; [apply dict_keys_set_in |].
  intros s' Hn. now rewrite dict_get_not_in.
Qed.

Lemma C6_register_then_output_witness :
  ~ List.In "missing"
      (_Outputs__iter__ (snd (register _Outputs__init__ html_class))) /\
  output (snd (register _Outputs__init__ html_class)) "html" = Ok html_class /\
  output (snd (register _Outputs__init__ html_class)) "missing"
  = Raise (KeyError "missing").
Proof.
  pose proof (C6_register_then_output _Outputs__init__ html_class)
    as (_ & Hout & _ & Hmiss).
  assert (Hn : ~ List.In "missing"
             (_Outputs__iter__ (snd (register _Outputs__init__ html_class)))).
  { intros [E | []]. discriminate E. }
  split; [exact Hn |]. split; [exact Hout |]. exact (proj1 (Hmiss _ Hn)).
Defined.

(** ** Diagnostics *)






(** ** Output destinations *)

(** The primitives deliver what a directory destination is meant to hand
    out: a file opened for writing, written and closed holds the data. *)
Lemma builtin_open_write_close (fn data : string) (fs : gmap string string) :
  exists f fs',
    builtin_open fn ["w"] fs = (Ok f, fs') /\
    file_close (file_write f data) fs' !! fn = Some data.
Proof.
  eexists _, _. split; [reflexivity |].
  unfold file_close, file_write. cbn [f_name f_pending].
  rewrite !lookup_insert_eq. reflexivity.
Qed.

Lemma StringIO_write_twice :
  getvalue (StringIO_write (StringIO_write StringIO__init__ "abc") "def")
  = "abcdef".
Proof. reflexivity. Qed.

(** No assignment to [stream] goes through, on any class of the
    hierarchy: the name resolves to a property without setter. *)
Lemma stream_not_assignable (self : object) (v : value) :
  object_setattr self "stream" v = Raise AttributeError.
Proof. destruct self as [[] d]; reflexivity. Qed.

(** And a [stream] entry of the instance dictionary would stay hidden
    behind the property. *)
Lemma stream_property_first (d : list (string * value)) :
  object_getattr (mk_object TextOutput d) "stream" = Raise NotImplementedError /\
  object_getattr (mk_object StringOutput d) "stream" = Raise NotImplementedError.
Proof. split; reflexivity. Qed.

Lemma DirOutput_open_never_returns (self : object) (args : list string)
    (fs : gmap string string) :
  is_ok (fst (DirOutput_open self args fs)) = false.
Proof.
  unfold DirOutput_open. destruct args as [|filename args]; [reflexivity |].
  destruct (object_getattr self "dir") as [[dir| | | |]|e]; try reflexivity.
  destruct (builtin_open _ args fs) as [[f|e] fs']; reflexivity.
Qed.

(** C1 (the code at the claim's scenario): constructing a directory
    destination over [dir], opening [filename] for writing, writing [data]
    to the stream of the result and closing it. The built-in [open]
    creates the empty file at the joined path; wrapping the handle in a
    [TextOutput] then raises [AttributeError], so no destination comes
    back and the data is never written. *)
Theorem C1_directory_session_raises (dir filename data : string)
    (fs : gmap string string) :
  directory_session dir filename "w" data fs
  = (Raise AttributeError, <[os_path_join dir filename := EmptyString]> fs).
Proof. reflexivity. Qed.

(** C2 (the code at the claim's scenario): constructing an in-memory
    destination raises [AttributeError] before anything can be written or
    read back, whatever the writes. *)
Theorem C2_in_memory_session_raises (writes : list string) :
  in_memory_session writes = Raise AttributeError.
Proof. reflexivity. Qed.

(** C9 (as amended): [open], with any arguments, on a direct-stream
    destination is the inherited method and raises [NotImplementedError];
    on a standard-output destination it succeeds and returns the
    destination itself, whose [stream] is the standard output. *)
Theorem C9_open_on_stream_and_stdout (d : list (string * value))
    (args : list string) (fs : gmap string string) :
  call_open (mk_object TextOutput d) args fs = (Raise NotImplementedError, fs) /\
  call_open (mk_object StdOutput d) args fs = (Ok (mk_object StdOutput d), fs) /\
  object_getattr (mk_object StdOutput d) "stream" = Ok (VChannel sys_stdout).
Proof. repeat split. Qed.

(** C9 (as stated) fails on the standard-output destination: its [open]
    returns the destination instead of raising. *)
Lemma C9_counterexample :
  StdOutput_new = Ok (new_object StdOutput) /\
  call_open (new_object StdOutput) ["x.txt"; "w"] ∅
  = (Ok (new_object StdOutput), ∅) /\
  is_ok (fst (call_open (new_object StdOutput) ["x.txt"; "w"] ∅)) = true.
Proof. repeat split. Qed.

(** * Further properties of the module *)

(** ** The cache: capacity, keys, eviction order *)

Section lru_more_facts.
Context {K V : Type} `{EqDecision K}.
Variable maxsize : nat.
Variable f : K -> result V.

Lemma removelast_length (l : list (K * V)) :
  List.length (removelast l) = List.length l - 1.
Proof.
  induction l as [|p l IH]; [reflexivity |].
  destruct l as [|q l']; [reflexivity |].
  change (removelast (p :: q :: l')) with (p :: removelast (q :: l')).
  cbn [List.length] in *. lia.
Qed.

Lemma assoc_del_length (k : K) (l : list (K * V)) :
  List.length (assoc_del k l) <= List.length l.
Proof.
  induction l as [|[k' v'] l IH]; simpl; [lia |].
  destruct (decide (k = k')); simpl; lia.
Qed.

Lemma assoc_del_length_found (k : K) (l : list (K * V)) (v : V) :
  assoc_get k l = Some v -> List.length (assoc_del k l) < List.length l.
Proof.
  induction l as [|[k' v'] l IH]; simpl; [discriminate |].
  destruct (decide (k = k')); simpl.
  - intros _. pose proof (assoc_del_length k l). lia.
  - intros Hg. apply IH in Hg. lia.
Qed.

Lemma lru_call_bounded (key : K) (c : lru K V) :
  1 <= maxsize ->
  List.length (entries c) <= maxsize ->
  List.length (entries (snd (lru_call maxsize f key c))) <= maxsize.
Proof.
  intros Hmax Hc. unfold lru_call.
  destruct (assoc_get key (entries c)) as [v|] eqn:Hget; cbn [snd entries].
  - apply assoc_del_length_found in Hget. cbn [List.length]. lia.
  - destruct (f key) as [v|e]; cbn [snd entries]; [| exact Hc].
    destruct (maxsize <=? List.length (entries c))%nat eqn:Hfull;
      cbn [List.length].
    + rewrite removelast_length. apply Nat.leb_le in Hfull. lia.
    + apply Nat.leb_gt in Hfull. lia.
Qed.

Lemma lru_reachable_bounded (c : lru K V) :
  1 <= maxsize -> lru_reachable maxsize f c ->
  List.length (entries c) <= maxsize.
Proof.
  intros Hmax. induction 1 as [|key c _ IH].
  - cbn. lia.
  - now apply lru_call_bounded.
Qed.

Lemma assoc_get_None_notin (k : K) (l : list (K * V)) :
  assoc_get k l = None -> k ∉ l.*1.
Proof.
  induction l as [|[k' v'] l IH]; simpl.
  - intros _. apply not_elem_of_nil.
  - destruct (decide (k = k')); [discriminate |].
    intros Hg. apply not_elem_of_cons. split; [assumption | now apply IH].
Qed.

Lemma assoc_del_keys_sublist (k : K) (l : list (K * V)) :
  (assoc_del k l).*1 `sublist_of` l.*1.
Proof.
  induction l as [|[k' v'] l IH]; simpl; [constructor |].
  destruct (decide (k = k')); simpl.
  - now apply sublist_cons.
  - now apply sublist_skip.
Qed.

Lemma assoc_del_notin (k : K) (l : list (K * V)) : k ∉ (assoc_del k l).*1.
Proof.
  induction l as [|[k' v'] l IH]; simpl; [apply not_elem_of_nil |].
  destruct (decide (k = k')); [exact IH |].
  simpl. apply not_elem_of_cons. now split.
Qed.

Lemma removelast_keys_sublist (l : list (K * V)) :
  (removelast l).*1 `sublist_of` l.*1.
Proof.
  rewrite removelast_firstn_len, fmap_take. apply sublist_take.
Qed.

Lemma lru_call_keys_NoDup (key : K) (c : lru K V) :
  NoDup (entries c).*1 ->
  NoDup (entries (snd (lru_call maxsize f key c))).*1.
Proof.
  intros Hc. unfold lru_call.
  destruct (assoc_get key (entries c)) as [v|] eqn:Hget; cbn [snd entries].
  - cbn. apply NoDup_cons. split; [apply assoc_del_notin |].
    eapply sublist_NoDup; [exact Hc | apply assoc_del_keys_sublist].
  - destruct (f key) as [v|e]; cbn [snd entries]; [| exact Hc].
    cbn. apply NoDup_cons. apply assoc_get_None_notin in Hget.
    destruct (maxsize <=? List.length (entries c))%nat; [| now split].
    split.
    + intros Hin. apply Hget.
      eapply elem_of_sublist; [exact Hin | apply removelast_keys_sublist].
    + eapply sublist_NoDup; [exact Hc | apply removelast_keys_sublist].
Qed.

Lemma lru_reachable_keys_NoDup (c : lru K V) :
  lru_reachable maxsize f c -> NoDup (entries c).*1.
Proof.
  induction 1 as [|key c _ IH]; [apply NoDup_nil_2 |].
  now apply lru_call_keys_NoDup.
Qed.

(** A key found among the first [n] entries. *)
Lemma assoc_get_take_mono (k : K) (l : list (K * V)) (v : V) (n m : nat) :
  n <= m -> assoc_get k (take n l) = Some v -> assoc_get k (take m l) = Some v.
Proof.
  revert n m. induction l as [|[k' v'] l IH]; intros n m Hnm.
  - now rewrite !take_nil.
  - destruct n as [|n]; [discriminate |].
    destruct m as [|m]; [lia |]. cbn [take assoc_get].
    destruct (decide (k = k')); [easy |]. apply IH. lia.
Qed.

Lemma assoc_get_take_all (k : K) (l : list (K * V)) (v : V) (n : nat) :
  assoc_get k (take n l) = Some v -> assoc_get k l = Some v.
Proof.
  intros Hg.
  destruct (Nat.le_gt_cases n (List.length l)) as [Hle|Hgt].
  - rewrite <- (firstn_all l).
    now apply (assoc_get_take_mono k l v n (List.length l)).
  - rewrite take_ge in Hg by lia. exact Hg.
Qed.

Lemma assoc_get_take_del (k key : K) (l : list (K * V)) (v : V) (n : nat) :
  k <> key -> assoc_get k (take n l) = Some v ->
  assoc_get k (take n (assoc_del key l)) = Some v.
Proof.
  intros Hne. revert n. induction l as [|[k' v'] l IH]; intros n.
  - now rewrite !take_nil.
  - destruct n as [|n]; [discriminate |]. cbn [take assoc_get assoc_del].
    destruct (decide (k = k')) as [->|Hk].
    + intros [= ->]. destruct (decide (key = k')); [now subst |].
      cbn [take assoc_get]. now destruct (decide (k' = k')).
    + intros Hg. destruct (decide (key = k')).
      * apply (assoc_get_take_mono k _ v n (S n)); [lia | now apply IH].
      * cbn [take assoc_get]. destruct (decide (k = k')); [contradiction |].
        now apply IH.
Qed.

(** One call with another key pushes a key at most one place back, and
    evicts only from the last of [maxsize] places. *)
Lemma lru_call_keeps_recent (k key : K) (c : lru K V) (v : V) (n : nat) :
  k <> key -> n < maxsize ->
  assoc_get k (take n (entries c)) = Some v ->
  assoc_get k (take (S n) (entries (snd (lru_call maxsize f key c)))) = Some v.
Proof.
  intros Hne Hn Hg. unfold lru_call.
  destruct (assoc_get key (entries c)) as [v0|] eqn:Hget; cbn [snd entries].
  - cbn [take assoc_get]. destruct (decide (k = key)); [contradiction |].
    now apply assoc_get_take_del.
  - destruct (f key) as [v0|e]; cbn [snd entries].
    + cbn [take assoc_get]. destruct (decide (k = key)); [contradiction |].
      destruct (maxsize <=? List.length (entries c))%nat eqn:Hfull;
        [| exact Hg].
      apply Nat.leb_le in Hfull.
      rewrite removelast_firstn_len, take_take.
      replace (n `min` Init.Nat.pred (List.length (entries c))) with n by lia.
      exact Hg.
    + now apply (assoc_get_take_mono k _ v n (S n)); [lia |].
Qed.

Lemma lru_calls_keep_recent (k : K) (v : V) (keys : list K) (c : lru K V)
    (n : nat) :
  Forall (fun key => key <> k) keys ->
  n + List.length keys <= maxsize ->
  assoc_get k (take n (entries c)) = Some v ->
  assoc_get k (entries (lru_calls maxsize f keys c)) = Some v.
Proof.
  revert c n. induction keys as [|key keys IH]; intros c n Hall Hlen Hg.
  - now apply assoc_get_take_all in Hg.
  - apply Forall_cons in Hall as [Hkey Hall]. cbn [List.length] in Hlen.
    unfold lru_calls. cbn [fold_left].
    apply (IH _ (S n)); [assumption | lia |].
    apply lru_call_keeps_recent; [congruence | lia | assumption].
Qed.

Lemma lru_call_ok_front (k : K) (c : lru K V) (v : V) :
  fst (lru_call maxsize f k c) = Ok v ->
  assoc_get k (take 1 (entries (snd (lru_call maxsize f k c)))) = Some v.
Proof.
  unfold lru_call.
  destruct (assoc_get k (entries c)) as [v0|]; cbn [fst snd entries].
  - intros [= ->]. cbn. now destruct (decide (k = k)).
  - destruct (f k) as [v0|e]; cbn [fst snd entries]; [| discriminate].
    intros [= ->]. cbn. now destruct (decide (k = k)).
Qed.
End lru_more_facts.

(** X1: the cache that [@lru_cache(64)] keeps for a resolver never holds
    more than 64 entries, whatever calls were made. *)
Theorem lru_cache_never_exceeds_capacity {K V : Type} `{EqDecision K}
    (f : K -> result V) (c : lru K V) :
  lru_reachable 64 f c -> List.length (entries c) <= 64.
Proof. apply lru_reachable_bounded. lia. Qed.

Lemma lru_cache_never_exceeds_capacity_witness :
  List.length
    (entries (snd (resource_bytes sample_bundle "foo.rst" lru_empty))) <= 64.
Proof.
  apply (lru_cache_never_exceeds_capacity
           (resource_bytes__wrapped sample_bundle)).
  apply reach_call, reach_empty.
Defined.

(** X2: the cache of a resolver never holds two entries for the same
    argument tuple. *)
Theorem lru_cache_keys_unique {K V : Type} `{EqDecision K}
    (f : K -> result V) (c : lru K V) :
  lru_reachable 64 f c -> NoDup (map fst (entries c)).
Proof. apply lru_reachable_keys_NoDup. Qed.

Lemma lru_cache_keys_unique_witness :
  NoDup (map fst
    (entries (snd (resource_bytes sample_bundle "foo.rst"
                     (snd (resource_bytes sample_bundle "foo.rst"
                             lru_empty)))))).
Proof.
  apply (lru_cache_keys_unique (resource_bytes__wrapped sample_bundle)).
  apply reach_call, reach_call, reach_empty.
Defined.

(** X3: a call that raises stores nothing: the cache keeps its entries
    and its hit count, one miss is counted, and the same call made again
    enters the wrapped function again and raises the same exception. *)
Theorem failed_call_is_not_cached {K V : Type} `{EqDecision K}
    (f : K -> result V) (key : K) (c : lru K V) (e : exn) :
  fst (lru_call 64 f key c) = Raise e ->
  let c' := snd (lru_call 64 f key c) in
  entries c' = entries c /\ hits c' = hits c /\ misses c' = S (misses c) /\
  fst (lru_call 64 f key c') = Raise e /\
  misses (snd (lru_call 64 f key c')) = S (S (misses c)).
Proof.
  cbv zeta.
  destruct (assoc_get key (entries c)) as [v|] eqn:Hget.
  - rewrite (lru_call_hit 64 f key c v Hget). discriminate.
  - destruct (f key) as [v|e0] eqn:Hf.
    + rewrite (lru_call_miss_ok 64 f key c v Hget Hf). discriminate.
    + rewrite (lru_call_miss_raise 64 f key c e0 Hget Hf). cbn [fst snd].
      intros [= ->].
      rewrite (lru_call_miss_raise 64 f key
                 (mk_lru (entries c) (hits c) (S (misses c))) e Hget Hf).
      repeat split.
Qed.

Lemma failed_call_is_not_cached_witness :
  fst (resource_bytes sample_bundle "nope.rst" lru_empty)
  = Raise FileNotFoundError /\
  misses (snd (resource_bytes sample_bundle "nope.rst"
                 (snd (resource_bytes sample_bundle "nope.rst" lru_empty))))
  = 2.
Proof.
  assert (Hr : fst (resource_bytes sample_bundle "nope.rst" lru_empty)
               = Raise FileNotFoundError) by (vm_compute; reflexivity).
  split; [exact Hr |].
  exact (proj2 (proj2 (proj2 (proj2
           (failed_call_is_not_cached (resource_bytes__wrapped sample_bundle)
              "nope.rst" lru_empty FileNotFoundError Hr))))).
Defined.

(** X4: a value returned for a key stays cached while fewer than 64 calls
    with other keys follow: after the call with key [k] returned [v] and
    at most 63 calls with keys other than [k] were made, in any order and
    whatever they returned, the call with [k] is a hit; it returns [v]
    without entering the wrapped function. *)
Theorem recent_key_stays_cached {K V : Type} `{EqDecision K}
    (f : K -> result V) (k : K) (v : V) (others : list K) (c : lru K V) :
  fst (lru_call 64 f k c) = Ok v ->
  Forall (fun key => key <> k) others ->
  List.length others < 64 ->
  let c' := lru_calls 64 f others (snd (lru_call 64 f k c)) in
  fst (lru_call 64 f k c') = Ok v /\
  misses (snd (lru_call 64 f k c')) = misses c' /\
  hits (snd (lru_call 64 f k c')) = S (hits c').
Proof.
  intros Hok Hall Hlen. cbv zeta.
  assert (Hg : assoc_get k
                 (entries (lru_calls 64 f others (snd (lru_call 64 f k c))))
               = Some v).
  { apply (lru_calls_keep_recent 64 f k v others _ 1); [assumption | lia |].
    now apply lru_call_ok_front. }
  rewrite (lru_call_hit 64 f k _ v Hg). repeat split.
Qed.

Lemma recent_key_stays_cached_witness :
  let c' := lru_calls 64 (resource_bytes__wrapped sample_bundle)
              ["nope.rst"; "html/README.rst"]
              (snd (resource_bytes sample_bundle "foo.rst" lru_empty)) in
  fst (resource_bytes sample_bundle "foo.rst" c') = Ok [x68; x69] /\
  misses (snd (resource_bytes sample_bundle "foo.rst" c')) = misses c'.
Proof.
  assert (Hok : fst (resource_bytes sample_bundle "foo.rst" lru_empty)
                = Ok [x68; x69]) by (vm_compute; reflexivity).
  assert (Hall : Forall (fun key : string => key <> "foo.rst")
                   ["nope.rst"; "html/README.rst"]).
  { repeat constructor; discriminate. }
  assert (Hlen : List.length ["nope.rst"; "html/README.rst"] < 64)
    by (cbn; lia).
  pose proof (recent_key_stays_cached (resource_bytes__wrapped sample_bundle)
                "foo.rst" [x68; x69] ["nope.rst"; "html/README.rst"]
                lru_empty Hok Hall Hlen) as (Hres & Hmiss & _).
  split; [exact Hres | exact Hmiss].
Defined.

(** ** Resource names, again *)

Lemma startswith_split (x p : string) :
  startswith x p = true -> x = p ++ str_drop (String.length p) x.
Proof.
  unfold startswith. revert x. induction p as [|a p IH]; intros x; simpl.
  - reflexivity.
  - destruct x as [|b x]; simpl; [intros [=] |].
    destruct (ascii_dec a b) as [->|]; [| intros [=]].
    intros Hp.
    change (String b x = String b (p ++ str_drop (String.length p) x)).
    f_equal. now apply IH.
Qed.

(** X5: stripping undoes prefixing, for every name: the marker is removed
    once, also when the name itself starts with the marker. *)
Theorem strip_resource_after_prefix (n : string) :
  _strip_resource ("resource/" ++ n) = n /\
  _strip_resource ("resource/" ++ "resource/" ++ n) = "resource/" ++ n.
Proof.
  split.
  - apply (strip_prefixed n).
  - apply (strip_prefixed (_RSC ++ n)).
Qed.

(** X6: [_strip_resource] returns its argument unchanged or without the
    leading marker, nothing else: a name is either returned as it is (and
    then does not start with the marker) or it is the marker followed by
    the result. The result is never longer than the name. *)
Theorem strip_resource_is_suffix (x : string) :
  (startswith x "resource/" = false /\ _strip_resource x = x \/
   startswith x "resource/" = true /\ x = "resource/" ++ _strip_resource x) /\
  String.length (_strip_resource x) <= String.length x.
Proof.
  assert (Hcases :
    startswith x "resource/" = false /\ _strip_resource x = x \/
    startswith x "resource/" = true /\ x = "resource/" ++ _strip_resource x).
  { unfold _strip_resource. change _RSC with "resource/".
    destruct (startswith x "resource/") eqn:Hp.
    - right. split; [reflexivity |]. now apply startswith_split.
    - left. now split. }
  split; [exact Hcases |].
  destruct Hcases as [[_ ->] | [_ Hx]]; [lia |].
  rewrite Hx at 2. rewrite str_length_app. lia.
Qed.

(** ** The resolvers, again *)

Lemma universal_newlines_no_cr (t : text) : 13%N ∉ universal_newlines t.
Proof.
  induction t as [|c r IH]; [apply not_elem_of_nil |].
  cbn [universal_newlines].
  destruct (c =? 13)%N eqn:Hc.
  - apply not_elem_of_cons. split; [discriminate |].
    destruct r as [|c' r']; [apply not_elem_of_nil |].
    destruct (c' =? 10)%N eqn:Hc'; [| exact IH].
    cbn [universal_newlines] in IH.
    apply N.eqb_eq in Hc'. subst c'. cbn in IH.
    now apply not_elem_of_cons in IH.
  - apply not_elem_of_cons. split; [| exact IH].
    apply N.eqb_neq in Hc. congruence.
Qed.

Section resolver_more_facts.
Variable bundle : string -> result (list byte).
Variable other_codecs : string -> string -> list byte -> result text.
Variable Template : Type.
Variable jinja_get_template : string -> result Template.

(** X7: memoization is transparent. Whatever calls were made before, each
    resolver returns what its undecorated body returns for the same
    arguments: what reading the stripped name gives, that read decoded,
    and what the template environment gives for the stripped name. The
    cache never serves a value that differs from a fresh read. *)
Theorem resolvers_return_fresh_result (name : string)
    (encoding errors : option string)
    (cb : lru string (list byte)) (ct : lru text_key text)
    (cp : lru string Template) :
  lru_reachable 64 (resource_bytes__wrapped bundle) cb ->
  lru_reachable 64 (resource_text__wrapped bundle other_codecs) ct ->
  lru_reachable 64 (resource_template__wrapped Template jinja_get_template)
    cp ->
  fst (resource_bytes bundle name cb) = bundle (_strip_resource name) /\
  fst (resource_text bundle other_codecs name encoding errors ct)
  = resource_text__wrapped bundle other_codecs (name, encoding, errors) /\
  fst (resource_template Template jinja_get_template name cp)
  = jinja_get_template (_strip_resource name).
Proof.
  intros Hb Ht Hp. unfold resource_bytes, resource_text, resource_template.
  rewrite !lru_call_reachable_result by assumption. now repeat split.
Qed.

(** X8: spelling out the defaults of [resource_text] changes the cache
    key, not the text: [resource_text(n)] and
    [resource_text(n, 'utf-8', 'strict')] return the same result, and the
    two calls occupy separate cache slots. *)
Theorem resource_text_explicit_defaults (n : string)
    (ct ct' : lru text_key text) :
  lru_reachable 64 (resource_text__wrapped bundle other_codecs) ct ->
  lru_reachable 64 (resource_text__wrapped bundle other_codecs) ct' ->
  fst (resource_text bundle other_codecs n None None ct)
  = fst (resource_text bundle other_codecs n (Some "utf-8") (Some "strict")
           ct') /\
  separate_entries (n, None, None) (n, Some "utf-8", Some "strict")
    (resource_text bundle other_codecs n None None)
    (resource_text bundle other_codecs n (Some "utf-8") (Some "strict")).
Proof.
  intros Ht Ht'. split.
  - unfold resource_text. now rewrite !lru_call_reachable_result by assumption.
  - apply lru_separate_entries; [discriminate | reflexivity | lia].
Qed.

(** X9: text returned by [resource_text] holds no carriage return, for
    every encoding and error policy: reading in text mode turns every
    line end into a line feed. *)
Theorem resource_text_has_no_carriage_return (name : string)
    (encoding errors : option string) (ct : lru text_key text) (data : text) :
  lru_reachable 64 (resource_text__wrapped bundle other_codecs) ct ->
  fst (resource_text bundle other_codecs name encoding errors ct) = Ok data ->
  13%N ∉ data.
Proof.
  intros Ht. unfold resource_text.
  rewrite lru_call_reachable_result by assumption.
  unfold resource_text__wrapped.
  destruct (bundle (_strip_resource name)) as [b|]; [| discriminate].
  destruct (decode _ _ _ b) as [t|e]; [| discriminate].
  intros [= <-]. apply universal_newlines_no_cr.
Qed.

End resolver_more_facts.

Lemma resolvers_return_fresh_result_witness :
  fst (resource_bytes sample_bundle "resource/foo.rst"
         (snd (resource_bytes sample_bundle "foo.rst" lru_empty)))
  = Ok [x68; x69].
Proof.
  pose proof (resolvers_return_fresh_result sample_bundle no_codecs text
                sample_jinja "resource/foo.rst" None None
                (snd (resource_bytes sample_bundle "foo.rst" lru_empty))
                lru_empty lru_empty
                (reach_call _ _ _ _ (reach_empty _ _))
                (reach_empty _ _) (reach_empty _ _)) as (Hb & _ & _).
  rewrite Hb. vm_compute. reflexivity.
Defined.

Lemma resource_text_explicit_defaults_witness :
  fst (resource_text sample_bundle no_codecs "html/README.rst" None None
         lru_empty)
  = fst (resource_text sample_bundle no_codecs "html/README.rst"
           (Some "utf-8") (Some "strict") lru_empty).
Proof.
  exact (proj1 (resource_text_explicit_defaults sample_bundle no_codecs
                  "html/README.rst" lru_empty lru_empty
                  (reach_empty _ _) (reach_empty _ _))).
Defined.

Lemma resource_text_has_no_carriage_return_witness :
  fst (resource_text sample_bundle no_codecs "html/README.rst" None None
         lru_empty) = Ok [72; 84; 77; 76; 10]%N /\
  13%N ∉ [72; 84; 77; 76; 10]%N.
Proof.
  assert (Hr : fst (resource_text sample_bundle no_codecs "html/README.rst"
                      None None lru_empty) = Ok [72; 84; 77; 76; 10]%N)
    by (vm_compute; reflexivity).
  split; [exact Hr |].
  exact (resource_text_has_no_carriage_return sample_bundle no_codecs
           "html/README.rst" None None lru_empty _ (reach_empty _ _) Hr).
Defined.


(** ** The registry, again *)

Lemma dict_get_in_keys (d : dict) (k : string) :
  List.In k (dict_keys d) <-> exists v, dict_get d k = Some v.
Proof.
  induction d as [|[k' v'] d IH]; simpl.
  - split; [intros [] | intros [v [=]]].
  - destruct (String.eqb k k') eqn:E.
    + apply String.eqb_eq in E as ->. split; [now exists v' | now left].
    + apply String.eqb_neq in E. rewrite <- IH. split; [| now right].
      intros [Heq | Hin]; [congruence | exact Hin].
Qed.

Lemma dict_keys_set_present (d : dict) (k : string) (v : py_class) :
  List.In k (dict_keys d) -> dict_keys (dict_set d k v) = dict_keys d.
Proof.
  induction d as [|[k' v'] d IH]; simpl; [intros [] |].
  destruct (String.eqb k k') eqn:E; simpl; [reflexivity |].
  apply String.eqb_neq in E.
  intros [Heq | Hin]; [congruence | now rewrite IH].
Qed.

Lemma dict_keys_set_absent (d : dict) (k : string) (v : py_class) :
  ~ List.In k (dict_keys d) ->
  dict_keys (dict_set d k v) = (dict_keys d ++ [k])%list.
Proof.
  induction d as [|[k' v'] d IH]; simpl; [reflexivity |].
  intros Hn. destruct (String.eqb k k') eqn:E; simpl.
  - apply String.eqb_eq in E. exfalso. apply Hn. now left.
  - rewrite IH; [reflexivity |]. intros Hin. apply Hn. now right.
Qed.

(** X11: registering a class leaves every other name as it was:
    [output(s')] gives the same class, or the same [KeyError], for every
    [s'] other than the registered name. *)
Theorem register_keeps_other_names (self : _Outputs) (kls : py_class)
    (s' : string) :
  s' <> outputname kls ->
  output (snd (register self kls)) s' = output self s'.
Proof.
  intros Hne. unfold output, register. cbn [snd _outputs].
  now rewrite dict_get_set_ne.
Qed.

Lemma register_keeps_other_names_witness :
  output (snd (register (snd (register _Outputs__init__ html_class))
                 (mk_class "CHeader" "c"))) "html" = Ok html_class.
Proof.
  rewrite (register_keeps_other_names
             (snd (register _Outputs__init__ html_class))
             (mk_class "CHeader" "c") "html"); [reflexivity | discriminate].
Defined.

(** X12: registering under a name that is already registered replaces
    the class and keeps the enumeration as it is: the name keeps its
    place and is not listed twice. *)
Theorem register_again_replaces (self : _Outputs) (kls : py_class) :
  List.In (outputname kls) (_Outputs__iter__ self) ->
  _Outputs__iter__ (snd (register self kls)) = _Outputs__iter__ self /\
  output (snd (register self kls)) (outputname kls) = Ok kls.
Proof.
  intros Hin. unfold _Outputs__iter__, output, register. cbn [snd _outputs].
  rewrite dict_keys_set_present by assumption.
  now rewrite dict_get_set_eq.
Qed.

Lemma register_again_replaces_witness :
  _Outputs__iter__
    (snd (register (registered [html_class; mk_class "CHeader" "c"])
            (mk_class "Html5" "html")))
  = ["html"; "c"] /\
  output (snd (register (registered [html_class; mk_class "CHeader" "c"])
                 (mk_class "Html5" "html"))) "html"
  = Ok (mk_class "Html5" "html").
Proof.
  apply (register_again_replaces
           (registered [html_class; mk_class "CHeader" "c"])
           (mk_class "Html5" "html")).
  simpl. now left.
Defined.

(** X13: registering under a new name appends the name to the
    enumeration: names are listed in the order of their first
    registration. *)
Theorem register_new_name_appends (self : _Outputs) (kls : py_class) :
  ~ List.In (outputname kls) (_Outputs__iter__ self) ->
  _Outputs__iter__ (snd (register self kls))
  = (_Outputs__iter__ self ++ [outputname kls])%list.
Proof.
  intros Hn. unfold _Outputs__iter__, register. cbn [snd _outputs].
  now apply dict_keys_set_absent.
Qed.

Lemma register_new_name_appends_witness :
  _Outputs__iter__
    (snd (register (registered [html_class]) (mk_class "CHeader" "c")))
  = ["html"; "c"].
Proof.
  apply (register_new_name_appends (registered [html_class])
           (mk_class "CHeader" "c")).
  intros [E | []]. discriminate E.
Defined.

(** X14: [output(s)] returns a class exactly for the names the registry
    enumerates, and raises [KeyError(s)] for every other name. *)
Theorem output_succeeds_iff_enumerated (self : _Outputs) (s : string) :
  (List.In s (_Outputs__iter__ self) <-> exists kls, output self s = Ok kls) /\
  (~ List.In s (_Outputs__iter__ self) <-> output self s = Raise (KeyError s)).
Proof.
  unfold _Outputs__iter__, output.
  pose proof (dict_get_in_keys (_outputs self) s) as Hk.
  destruct (dict_get (_outputs self) s) as [k|].
  - split; split.
    + intros _. now exists k.
    + intros _. apply Hk. now exists k.
    + intros Hn. exfalso. apply Hn, Hk. now exists k.
    + discriminate.
  - split; split.
    + intros Hin. apply Hk in Hin as [v [=]].
    + intros [kls [=]].
    + reflexivity.
    + intros _ Hin. apply Hk in Hin as [v [=]].
Qed.

Lemma registered_from (self : _Outputs) (klasses : list py_class) :
  let final := fold_left (fun r kls => snd (register r kls)) klasses self in
  (NoDup (_Outputs__iter__ self) -> NoDup (_Outputs__iter__ final)) /\
  (forall s kls, output final s = Ok kls ->
     output self s = Ok kls \/ (outputname kls = s /\ List.In kls klasses)).
Proof.
  revert self. induction klasses as [|k ks IH]; intros self; cbn [fold_left].
  - split; [easy | intros s kls Ho; now left].
  - specialize (IH (snd (register self k))). cbv zeta in IH.
    destruct IH as [IHnd IHout]. split.
    + intros Hnd. apply IHnd.
      unfold _Outputs__iter__, register in *. cbn [snd _outputs].
      destruct (in_dec string_dec (outputname k) (dict_keys (_outputs self)))
        as [Hin | Hn].
      * now rewrite dict_keys_set_present.
      * rewrite dict_keys_set_absent by assumption.
        apply NoDup_app. split; [exact Hnd |]. split.
        -- intros x Hx Hx'. apply list_elem_of_In in Hx.
           apply list_elem_of_singleton in Hx'. now subst x.
        -- apply NoDup_singleton.
    + intros s kls Ho. apply IHout in Ho as [Ho | [Hname Hin]].
      * unfold output, register in Ho. cbn [snd _outputs] in Ho.
        destruct (string_dec s (outputname k)) as [->|Hne].
        -- right. rewrite dict_get_set_eq in Ho. injection Ho as <-.
           split; [reflexivity | now left].
        -- left. rewrite dict_get_set_ne in Ho by assumption. exact Ho.
      * right. split; [exact Hname | now right].
Qed.

Lemma registered_order_from (self : _Outputs) (klasses : list py_class) :
  NoDup (_Outputs__iter__ self ++ map outputname klasses)%list ->
  _Outputs__iter__ (fold_left (fun r kls => snd (register r kls)) klasses self)
  = (_Outputs__iter__ self ++ map outputname klasses)%list.
Proof.
  revert self. induction klasses as [|k ks IH]; intros self Hnd;
    cbn [fold_left map].
  - now rewrite app_nil_r.
  - assert (Hn : ~ List.In (outputname k) (_Outputs__iter__ self)).
    { intros Hin. apply NoDup_app in Hnd as (_ & Hdisj & _).
      apply (Hdisj (outputname k)); [now apply list_elem_of_In |].
      cbn [map]. apply list_elem_of_here. }
    assert (Hstep : _Outputs__iter__ (snd (register self k))
                    = (_Outputs__iter__ self ++ [outputname k])%list).
    { unfold _Outputs__iter__, register in *. cbn [snd _outputs].
      now apply dict_keys_set_absent. }
    rewrite IH; rewrite Hstep, <- app_assoc; [reflexivity | exact Hnd].
Qed.

(** X15: in a registry built by registrations from the empty one, every
    name is enumerated once, and every class that [output] returns was
    registered and is returned under its own output name. *)
Theorem registered_invariants (klasses : list py_class) :
  NoDup (_Outputs__iter__ (registered klasses)) /\
  (forall s kls, output (registered klasses) s = Ok kls ->
     outputname kls = s /\ List.In kls klasses).
Proof.
  destruct (registered_from _Outputs__init__ klasses) as [Hnd Hout].
  split; [apply Hnd, NoDup_nil_2 |].
  intros s kls Ho. apply Hout in Ho as [Ho | Ho]; [discriminate Ho | exact Ho].
Qed.

Lemma registered_invariants_witness :
  output (registered [html_class; mk_class "CHeader" "c"]) "c"
  = Ok (mk_class "CHeader" "c") /\
  List.In (mk_class "CHeader" "c") [html_class; mk_class "CHeader" "c"].
Proof.
  split; [reflexivity |].
  apply (proj2 (registered_invariants [html_class; mk_class "CHeader" "c"])
           "c").
  reflexivity.
Defined.

(** X16: registering classes with pairwise distinct output names, from
    the empty registry, makes the enumeration the list of their names in
    registration order. *)
Theorem registered_enumeration_order (klasses : list py_class) :
  NoDup (map outputname klasses) ->
  _Outputs__iter__ (registered klasses) = map outputname klasses.
Proof.
  intros Hnd. unfold registered.
  now rewrite registered_order_from.
Qed.

Lemma registered_enumeration_order_witness :
  _Outputs__iter__ (registered [html_class; mk_class "CHeader" "c"])
  = ["html"; "c"].
Proof.
  apply (registered_enumeration_order [html_class; mk_class "CHeader" "c"]).
  repeat constructor; rewrite ?list_elem_of_In; cbn; intuition discriminate.
Defined.

Lemma output_succeeds_iff_enumerated_witness :
  List.In "html" (_Outputs__iter__ (registered [html_class])) /\
  exists kls, output (registered [html_class]) "html" = Ok kls.
Proof.
  assert (Hin : List.In "html" (_Outputs__iter__ (registered [html_class])))
    by (simpl; now left).
  split; [exact Hin |].
  exact (proj1 (proj1 (output_succeeds_iff_enumerated
                         (registered [html_class]) "html")) Hin).
Defined.

(** ** Diagnostics, again *)



(** ** Output destinations, again *)

(** X18: no direct-stream or in-memory destination can be constructed:
    [stream] is a property without setter on every class of the
    hierarchy, so the assignment in [TextOutput.__init__] and in
    [StringOutput.__init__] raises [AttributeError], whatever handle is
    passed. *)
Theorem stream_destinations_not_constructible (self : object) (v : value) :
  object_setattr self "stream" v = Raise AttributeError /\
  TextOutput_new v = Raise AttributeError /\
  StringOutput_new = Raise AttributeError.
Proof.
  split; [apply stream_not_assignable |]. split; reflexivity.
Qed.

(** X19: reading [stream] gives the standard output on a standard-output
    destination and raises [NotImplementedError] on an object of every
    other class, whatever its instance dictionary holds; reading [str] on
    a [StringOutput] object raises [NotImplementedError] likewise. *)
Theorem stream_property_by_class (k : klass) (d : list (string * value)) :
  object_getattr (mk_object k d) "stream"
  = match k with
    | StdOutput => Ok (VChannel sys_stdout)
    | _ => Raise NotImplementedError
    end /\
  object_getattr (mk_object StringOutput d) "str" = Raise NotImplementedError.
Proof. split; [destruct k; reflexivity | reflexivity]. Qed.

(** X20: [open] touches the file system on a directory destination only:
    on an object of any other class it leaves the files as they are; it
    returns the object itself on a standard-output destination and raises
    [NotImplementedError] on the rest. *)
Theorem open_without_directory (self : object) (args : list string)
    (fs : gmap string string) :
  ob_type self <> DirOutput ->
  call_open self args fs
  = (match ob_type self with
     | StdOutput => Ok self
     | _ => Raise NotImplementedError
     end, fs).
Proof.
  destruct self as [[] d]; cbn [ob_type]; intros Hk;
    [reflexivity | reflexivity | contradiction | reflexivity | reflexivity].
Qed.

Lemma open_without_directory_witness :
  call_open (mk_object StringOutput []) ["x.txt"; "w"] ∅
  = (Raise NotImplementedError, ∅).
Proof.
  apply (open_without_directory (mk_object StringOutput []) ["x.txt"; "w"] ∅).
  discriminate.
Defined.

(** X21: [open] on a directory destination never returns a destination,
    whatever the arguments: without a file name it raises [TypeError],
    when the built-in [open] raises that exception comes through, and when
    the built-in [open] succeeds, with whatever effect on the files,
    [AttributeError] follows. *)
Theorem directory_open_never_returns (dir : string) (args : list string)
    (fs : gmap string string) :
  DirOutput_new dir = Ok (mk_object DirOutput [("dir", VStr dir)]) /\
  let d := mk_object DirOutput [("dir", VStr dir)] in
  is_ok (fst (call_open d args fs)) = false /\
  (args = [] -> call_open d args fs = (Raise TypeError, fs)) /\
  (forall filename rest,
     args = filename :: rest ->
     call_open d args fs
     = match builtin_open (os_path_join dir filename) rest fs with
       | (Ok _, fs') => (Raise AttributeError, fs')
       | (Raise e, fs') => (Raise e, fs')
       end).
Proof.
  split; [reflexivity |]. cbv zeta. split; [| split].
  - apply DirOutput_open_never_returns.
  - now intros ->.
  - intros filename rest ->.
    change (call_open (mk_object DirOutput [("dir", VStr dir)])
              (filename :: rest) fs)
      with (match builtin_open (os_path_join dir filename) rest fs with
            | (Ok f, fs') => (TextOutput_new (VFile f), fs')
            | (Raise e, fs') => (Raise e, fs')
            end).
    destruct (builtin_open (os_path_join dir filename) rest fs) as [[f|e] fs'];
      reflexivity.
Qed.

Lemma directory_open_never_returns_witness :
  call_open (mk_object DirOutput [("dir", VStr "out")]) ["x.txt"] ∅
  = (Raise FileNotFoundError, ∅).
Proof.
  pose proof (directory_open_never_returns "out" ["x.txt"] ∅)
    as (_ & _ & _ & Hopen).
  rewrite (Hopen "x.txt" [] eq_refl). reflexivity.
Defined.



(** ** The export list *)

(** X23: the export list names neither [resource_template] nor
    [__version__] but one name made of the two, which the module does not
    bind; a star import of the module therefore raises
    [AttributeError]. *)
Theorem export_list_misses_resource_template :
  ~ List.In "resource_template" __all__ /\
  ~ List.In "__version__" __all__ /\
  List.In "resource_template__version__" __all__ /\
  ~ List.In "resource_template__version__" module_names /\
  import_star = Raise AttributeError.
Proof.
  repeat split; vm_compute; intuition discriminate.
Qed.
